(** * The vocabulary anagram game of [vocab/flask_vocab.py]

    A shallow embedding of the request handlers [index], [keep_going] and
    [check] and of the module-level seed parsing, with the helper classes
    they import ([LetterBag], [Vocab]) and the jumble generator.

    Python values are embedded as follows: [int] is [Z], [str] is [string]
    (one [ascii] per character), a value that is either a [str] or [None] is
    an [option string], a [list] is a [list], and a handler that may raise
    returns a sum whose left side is the exception.  The Flask session is a
    dictionary with three keys, each of which may be missing. *)

From Stdlib Require Import ZArith Lia Ascii String.
From stdpp Require Import gmap strings list.

Local Open Scope string_scope.
Local Open Scope Z_scope.

(** ** Exceptions and results *)

Inductive exn : Type :=
  | KeyError (key : string)
  | AssertionError
  | ValueError
  | TypeError
  | ConfigurationError
  | InvalidArgument.

Definition result (A : Type) : Type := exn + A.

Definition ok {A : Type} (a : A) : result A := inr a.
Definition raise {A : Type} (e : exn) : result A := inl e.

Definition is_ok {A : Type} (r : result A) : bool :=
  match r with inr _ => true | inl _ => false end.

(** [text = request.args.get("text", type=str)]: a string, or [None] when
    the query parameter is missing. *)
Definition arg : Type := option string.

(** [len(l)] *)
Definition len {A : Type} (l : list A) : Z := Z.of_nat (length l).

(** [x in l] for a Python list of strings-or-None. *)
Definition py_in (x : arg) (l : list arg) : bool := bool_decide (x ∈ l).

(** ["{}".format(x)]: a string is inserted as it is, [None] prints as
    the four letters of its name. *)
Definition fmt (x : arg) : string :=
  match x with
  | Some s => s
  | None => "None"
  end.

(** ** LetterBag *)

Module LetterBag.

(** Modelled from the spec: the class [LetterBag] of [src/letterbag.py],
    which is imported by the handlers and is not among the sources.  The
    spec gives it as "a mapping from character to occurrence count, built
    from an input string", with [contains] "true iff, for every character
    in candidate, the count of that character in candidate is ≤ the count
    in self". *)
Record t : Type := Build { members : gmap ascii nat }.

Definition chars (s : string) : list ascii := list_ascii_of_string s.

Definition count (bag : t) (ch : ascii) : nat := default 0%nat (members bag !! ch).

Definition add (m : gmap ascii nat) (ch : ascii) : gmap ascii nat :=
  <[ch := S (default 0%nat (m !! ch))]> m.

(** [LetterBag(word)] *)
Definition construct (word : string) : t :=
  Build (foldl add ∅ (chars word)).

(** [self.contains(candidate)] for a candidate that is a string. *)
Definition contains_str (self : t) (candidate : string) : bool :=
  let other := construct candidate in
  forallb (fun ch => (count other ch <=? count self ch)%nat) (chars candidate).

Section Missing.
(** The spec describes [contains] on strings only, gives it no error
    condition ("no side effects; pure query") and says that missing
    candidate text "is not an error".  Its answer for a missing
    candidate is left open: [contains_missing] is that answer. *)
Variable contains_missing : t -> bool.

(** [self.contains(text)] as the handlers call it. *)
Definition contains (self : t) (text : arg) : bool :=
  match text with
  | Some candidate => contains_str self candidate
  | None => contains_missing self
  end.
End Missing.

End LetterBag.

(** ** Vocab *)

Module Vocab.

(** Modelled from the spec: the class [Vocab] of [src/vocab.py], which is
    imported by the handlers and is not among the sources.  The spec gives
    it as "an ordered sequence of unique word strings, built once from a
    source list with duplicates removed while preserving first-seen
    order"; construction "fails with ConfigurationError if the resulting
    vocabulary is empty". *)
Record t : Type := Build { words : list string }.

Fixpoint dedup_first (seen : list string) (src : list string) : list string :=
  match src with
  | [] => []
  | w :: rest =>
      if bool_decide (w ∈ seen) then dedup_first seen rest
      else w :: dedup_first (w :: seen) rest
  end.

(** [Vocab(source)] *)
Definition construct (source : list string) : result t :=
  match dedup_first [] source with
  | [] => raise ConfigurationError
  | ws => ok (Build ws)
  end.

(** [self.as_list()] *)
Definition as_list (self : t) : list string := words self.

(** [self.has(word)]: "exact-match membership test.  Must tolerate
    None/missing input by returning false rather than raising." *)
Definition has (self : t) (word : arg) : bool :=
  match word with
  | Some w => bool_decide (w ∈ words self)
  | None => false
  end.

End Vocab.

(** ** Module-level configuration *)

(** A value of the configuration object [CONFIG]: it comes from a file or
    from the command line, so [CONFIG.SEED] may be an [int], a [str] or
    [None]. *)
Inductive config_value : Type :=
  | CfgNone
  | CfgInt (z : Z)
  | CfgStr (s : string).

Section Seed.
(** Python's [int] on a string: the integer it denotes, or [None] where
    [int] raises [ValueError]. *)
Variable int_of_str : string -> option Z.

(** [int(v)] *)
Definition py_int (v : config_value) : result Z :=
  match v with
  | CfgInt z => ok z
  | CfgStr s =>
      match int_of_str s with
      | Some z => ok z
      | None => raise ValueError
      end
  | CfgNone => raise TypeError
  end.

(** Lines 34-38:
<<
  SEED = CONFIG.SEED
  try:
      SEED = int(SEED)
  except ValueError:
      SEED = None
>>
    Only [ValueError] is caught. *)
Definition module_SEED (config_seed : config_value) : result (option Z) :=
  match py_int config_seed with
  | inr z => ok (Some z)
  | inl ValueError => ok None
  | inl e => raise e
  end.
End Seed.

(** [not SEED]: [None] and [0] are the falsy values of an optional int. *)
Definition py_not (x : option Z) : bool :=
  match x with
  | None => true
  | Some z => z =? 0
  end.

(** Line 53: [None if not SEED or SEED < 0 else SEED].  The comparison is
    evaluated only when [not SEED] is false, so never on [None]. *)
Definition seed_arg (SEED : option Z) : option Z :=
  if py_not SEED then None
  else match SEED with
       | Some z => if z <? 0 then None else SEED
       | None => None
       end.

(** ** Session and responses *)

(** [flask.session]: the keys ["jumble"], ["target_count"] and ["matches"],
    each present or not. *)
Record session : Type := Session {
  jumble : option string;
  target_count : option Z;
  matches : option (list arg)
}.

Definition set_jumble (s : session) (j : string) : session :=
  Session (Some j) (target_count s) (matches s).
Definition set_target_count (s : session) (n : Z) : session :=
  Session (jumble s) (Some n) (matches s).
Definition set_matches (s : session) (ms : list arg) : session :=
  Session (jumble s) (target_count s) (Some ms).

(** [flask.session.get("matches", [])] *)
Definition get_matches (s : session) : list arg := default [] (matches s).

Definition empty_session : session := Session None None None.

(** The dictionary [response_data] of [check]. *)
Record response_data : Type := ResponseData {
  rd_result : bool;
  rd_redirect_url : bool;
  rd_matches : list arg;
  rd_target : Z;
  rd_message : option string
}.

Definition set_message (d : response_data) (m : string) : response_data :=
  ResponseData (rd_result d) (rd_redirect_url d) (rd_matches d) (rd_target d) (Some m).

(** What [flask.jsonify] is applied to. *)
Inductive json : Type :=
  | JsonRedirect (message : string) (redirect_url : string) (result : bool)
  | JsonData (d : response_data)
  | JsonResult (matched : bool).

Inductive page : Type :=
  | render_template (name : string).

(** The [return] statement of [check] that was executed. *)
Inductive Outcome : Type :=
  | Success
  | NewMatch (word : arg)
  | AlreadyFound (word : arg)
  | NotInVocabulary (word : arg)
  | NotFromJumbleLetters (word : arg) (jumble : string).

(** The double-quote character of the last message of [check]. *)
Definition dquote : string := String (ascii_of_nat 34) EmptyString.

(** [flask.url_for("success")]: the rule of the view [success], line 79. *)
Definition url_for_success : string := "/success".

(** ** The handlers *)

Section Game.
(** The hidden state of the random generator behind [jumbled]. *)
Context {rng : Type}.

(** [jumbled(vocab, count, seed=...)] of [src/jumble.py], which is not
    among the sources: it returns the scrambled string or raises, and
    may advance the generator. *)
Variable jumbled : list string -> Z -> option Z -> rng -> result string * rng.

(** The module globals [WORDS] and [SEED], and [CONFIG.SUCCESS_AT_COUNT]. *)
Variable WORDS : Vocab.t.
Variable SEED : option Z.
Variable SUCCESS_AT_COUNT : Z.

Variable contains_missing : LetterBag.t -> bool.

(** [index], lines 47-59.  The session is written before the assertions
    run, so the returned session shows what was stored also when the
    handler raises. *)
Definition index (s : session) (r : rng) : session * rng * result page :=
  let vocab := Vocab.as_list WORDS in
  let s1 := set_target_count s (Z.min (len vocab) SUCCESS_AT_COUNT) in
  match jumbled vocab (Z.min (len vocab) SUCCESS_AT_COUNT) (seed_arg SEED) r with
  | (inl e, r') => (s1, r', raise e)
  | (inr j, r') =>
      let s2 := set_jumble s1 j in
      let s3 := set_matches s2 [] in
      if negb (bool_decide (matches s3 = Some [])) then (s3, r', raise AssertionError)
      else if negb (Z.min (len vocab) SUCCESS_AT_COUNT >? 0) then (s3, r', raise AssertionError)
      else (s3, r', ok (render_template "vocab.html"))
  end.

(** [keep_going], lines 63-77: the session is not read. *)
Definition keep_going (s : session) (text : arg) : session * json :=
  let matched := Vocab.has WORDS text in
  (s, JsonResult matched).

(** [check], lines 91-147.  [response_data['matches']] is the list object
    [matches] itself, so the response of the new-match branch shows the
    list after [matches.append(text)].  Nothing is written to the session
    before a statement that can raise, so an exception leaves the session
    as it was. *)
Definition check (s : session) (text : arg) : result (session * json * Outcome) :=
  match jumble s with
  | None => raise (KeyError "jumble")
  | Some jumble =>
      let matches := get_matches s in
      let in_jumble :=
        LetterBag.contains contains_missing (LetterBag.construct jumble) text in
      let matched := Vocab.has WORDS text in
      match target_count s with
      | None => raise (KeyError "target_count")
      | Some target =>
          let result := len matches >=? target in
          let response_data := ResponseData false false matches target None in
          if result then
            ok (s,
                JsonRedirect "Congrats you solved it, press any character to continue!"
                  url_for_success true,
                Success)
          else if matched && in_jumble && negb (py_in text matches) then
            let message :=
              "Congrats you found the match: " +:+ fmt text
                +:+ ". Clear the box to continue" in
            let matches' := (matches ++ [text])%list in
            ok (set_matches s matches',
                JsonData (ResponseData false false matches' target (Some message)),
                NewMatch text)
          else if py_in text matches then
            ok (s,
                JsonData (set_message response_data ("You already found " +:+ fmt text)),
                AlreadyFound text)
          else if negb matched then
            ok (s,
                JsonData (set_message response_data
                            (fmt text +:+ " isn't in the list of words")),
                NotInVocabulary text)
          else if negb in_jumble then
            ok (s,
                JsonData (set_message response_data
                            (dquote +:+ fmt text +:+ dquote
                               +:+ " can't be made from the letters " +:+ jumble)),
                NotFromJumbleLetters text jumble)
          else raise AssertionError
      end
  end.

(** The guards of the four answers of [check] (lines 126, 132, 137 and
    141), each taken with the failure of the guards tried before it.
    [j] is the session's jumble. *)
Definition case_NewMatch (s : session) (j : string) (text : arg) : bool :=
  Vocab.has WORDS text
    && LetterBag.contains contains_missing (LetterBag.construct j) text
    && negb (py_in text (get_matches s)).

Definition case_AlreadyFound (s : session) (j : string) (text : arg) : bool :=
  negb (case_NewMatch s j text) && py_in text (get_matches s).

Definition case_NotInVocabulary (s : session) (j : string) (text : arg) : bool :=
  negb (case_NewMatch s j text) && negb (py_in text (get_matches s))
    && negb (Vocab.has WORDS text).

Definition case_NotFromJumbleLetters (s : session) (j : string) (text : arg) : bool :=
  negb (case_NewMatch s j text) && negb (py_in text (get_matches s))
    && negb (negb (Vocab.has WORDS text))
    && negb (LetterBag.contains contains_missing (LetterBag.construct j) text).

(** The quota test of line 110 on a session that holds a target. *)
Definition quota_met (s : session) : bool :=
  match target_count s with
  | Some target => len (get_matches s) >=? target
  | None => false
  end.

(** The invariant of the found words of a session. *)
Definition session_inv (s : session) : Prop :=
  ∃ (j : string) (t : Z) (ms : list arg),
    jumble s = Some j ∧ target_count s = Some t ∧ matches s = Some ms ∧
    len ms ≤ t ∧ NoDup ms ∧
    Forall (fun m => Vocab.has WORDS m = true ∧
                     LetterBag.contains contains_missing (LetterBag.construct j) m = true)
           ms.

(** The answers of [check], as values. *)
Definition answer_Success (s : session) : session * json * Outcome :=
  (s,
   JsonRedirect "Congrats you solved it, press any character to continue!"
     url_for_success true,
   Success).

Definition answer_NewMatch (s : session) (t : Z) (text : arg)
  : session * json * Outcome :=
  (set_matches s (get_matches s ++ [text])%list,
   JsonData (ResponseData false false (get_matches s ++ [text])%list t
               (Some ("Congrats you found the match: " +:+ fmt text
                        +:+ ". Clear the box to continue"))),
   NewMatch text).

Definition answer_AlreadyFound (s : session) (t : Z) (text : arg)
  : session * json * Outcome :=
  (s,
   JsonData (ResponseData false false (get_matches s) t
               (Some ("You already found " +:+ fmt text))),
   AlreadyFound text).

Definition answer_NotInVocabulary (s : session) (t : Z) (text : arg)
  : session * json * Outcome :=
  (s,
   JsonData (ResponseData false false (get_matches s) t
               (Some (fmt text +:+ " isn't in the list of words"))),
   NotInVocabulary text).

Definition answer_NotFromJumbleLetters (s : session) (j : string) (t : Z) (text : arg)
  : session * json * Outcome :=
  (s,
   JsonData (ResponseData false false (get_matches s) t
               (Some (dquote +:+ fmt text +:+ dquote
                        +:+ " can't be made from the letters " +:+ j))),
   NotFromJumbleLetters text j).

(** Sessions reached by a completed [index] followed by answered
    submissions. *)
Inductive reachable : session -> Prop :=
  | reach_start (s0 : session) (r0 : rng) (s : session) (r : rng) (p : page) :
      index s0 r0 = (s, r, ok p) -> reachable s
  | reach_submit (s : session) (text : arg) (s' : session) (j : json) (o : Outcome) :
      reachable s -> check s text = ok (s', j, o) -> reachable s'.

End Game.

(** ** A small instance, for evaluating the handlers *)

Module Example.

(** A generator that does not shuffle: the first [n] words, glued. *)
Definition plain_jumbled (ws : list string) (n : Z) (seed : option Z) (r : unit)
  : result string * unit :=
  if n <=? 0 then (raise InvalidArgument, r)
  else (ok (foldr String.append EmptyString (take (Z.to_nat n) ws)), r).

(** A generator whose state is the log of the seeds it was called with. *)
Definition recording_jumbled (ws : list string) (n : Z) (seed : option Z)
    (log : list (option Z)) : result string * list (option Z) :=
  (ok (foldr String.append EmptyString (take (Z.to_nat n) ws)), seed :: log).

Definition WORDS : Vocab.t := Vocab.Build ["cat"; "dog"; "bird"].

Definition one_word : Vocab.t := Vocab.Build ["cat"].

Definition never (_ : LetterBag.t) : bool := false.

(** The session after [index] with threshold 2. *)
Definition started : session := Session (Some "catdog") (Some 2) (Some []).

(** The session once both words have been found. *)
Definition finished : session :=
  Session (Some "catdog") (Some 2) (Some [Some "cat"; Some "dog"]).

End Example.

(** ** A player's submissions, one request after the other *)

(** The word a new-match answer adds to the matches, if any. *)
Definition new_word (o : Outcome) : list arg :=
  match o with
  | NewMatch w => [w]
  | Success | AlreadyFound _ | NotInVocabulary _ | NotFromJumbleLetters _ _ => []
  end.

Definition new_words (os : list Outcome) : list arg := flat_map new_word os.

Section Requests.
Variable WORDS : Vocab.t.
Variable contains_missing : LetterBag.t -> bool.

(** The requests [/_check?text=...] of one player in the order they are
    served: each [check] reads the session the one before it stored.  The
    first exception ends the run. *)
Fixpoint submit_all (s : session) (texts : list arg) : result (session * list Outcome) :=
  match texts with
  | [] => ok (s, [])
  | text :: rest =>
      match check WORDS contains_missing s text with
      | inl e => raise e
      | inr (s', _, o) =>
          match submit_all s' rest with
          | inl e => raise e
          | inr (s'', os) => ok (s'', o :: os)
          end
      end
  end.

End Requests.

(** ** The letter bag counts letters *)

Section LetterBagFacts.
Import LetterBag.

Lemma add_lookup (m : gmap ascii nat) (a ch : ascii) :
  default 0%nat (add m a !! ch)
  = (default 0%nat (m !! ch) + (if ascii_dec a ch then 1 else 0))%nat.
Proof.
  unfold add. destruct (ascii_dec a ch) as [->|Hne].
  - rewrite lookup_insert_eq. simpl. lia.
  - rewrite lookup_insert_ne by done. lia.
Qed.

Lemma foldl_add_lookup (l : list ascii) (m : gmap ascii nat) (ch : ascii) :
  default 0%nat (foldl add m l !! ch)
  = (default 0%nat (m !! ch) + count_occ ascii_dec l ch)%nat.
Proof.
  revert m. induction l as [|a l IH]; intros m; simpl.
  - lia.
  - rewrite IH, add_lookup. destruct (ascii_dec a ch); lia.
Qed.

(** The mapping built by the constructor holds, for each character, the
    number of times it occurs in the word. *)
Lemma count_construct (word : string) (ch : ascii) :
  count (construct word) ch = count_occ ascii_dec (chars word) ch.
Proof.
  unfold count, construct. simpl. rewrite foldl_add_lookup.
  rewrite lookup_empty. reflexivity.
Qed.

Lemma contains_str_spec (b c : string) :
  contains_str (construct b) c = true ↔
  ∀ ch : ascii, ch ∈ chars c →
    (count_occ ascii_dec (chars c) ch ≤ count_occ ascii_dec (chars b) ch)%nat.
Proof.
  unfold contains_str. rewrite forallb_forall. split.
  - intros H ch Hin. apply list_elem_of_In in Hin. specialize (H ch Hin).
    apply Nat.leb_le in H. by rewrite !count_construct in H.
  - intros H ch Hin. apply list_elem_of_In in Hin. apply Nat.leb_le.
    rewrite !count_construct. by apply H.
Qed.

Lemma contains_str_refl (s : string) : contains_str (construct s) s = true.
Proof. apply contains_str_spec. intros ch _. lia. Qed.

End LetterBagFacts.

(** C5.  For every bag string [b] and candidate string [c], the bag built
    from [b] contains [c] exactly when every character of [c] occurs in [c]
    at most as often as in [b].  Repeated letters count: "aa" is not
    contained in the bag of "a".  Containment is reflexive. *)
Theorem LetterBag_contains_counts :
  (∀ b c : string,
      LetterBag.contains_str (LetterBag.construct b) c = true ↔
      ∀ ch : ascii, ch ∈ LetterBag.chars c →
        (count_occ ascii_dec (LetterBag.chars c) ch
         ≤ count_occ ascii_dec (LetterBag.chars b) ch)%nat)
  ∧ LetterBag.contains_str (LetterBag.construct "a") "aa" = false
  ∧ (∀ s : string, LetterBag.contains_str (LetterBag.construct s) s = true).
Proof.
  split; [exact contains_str_spec|].
  split; [by vm_compute|exact contains_str_refl].
Qed.

(** ** The submission handler, branch by branch *)

Section CheckFacts.
Context (WORDS : Vocab.t) (contains_missing : LetterBag.t -> bool).

Lemma check_no_jumble (s : session) (text : arg) :
  jumble s = None -> check WORDS contains_missing s text = raise (KeyError "jumble").
Proof. intros H. unfold check. by rewrite H. Qed.

Lemma check_no_target (s : session) (text : arg) (j : string) :
  jumble s = Some j -> target_count s = None ->
  check WORDS contains_missing s text = raise (KeyError "target_count").
Proof. intros Hj Ht. unfold check. by rewrite Hj, Ht. Qed.

(** On a session that holds a jumble and a target, [check] answers along
    its chain of guards; the last [else] is never taken. *)
Lemma check_started (s : session) (text : arg) (j : string) (t : Z) :
  jumble s = Some j -> target_count s = Some t ->
  check WORDS contains_missing s text =
    if len (get_matches s) >=? t then ok (answer_Success s)
    else if case_NewMatch WORDS contains_missing s j text
      then ok (answer_NewMatch s t text)
    else if case_AlreadyFound WORDS contains_missing s j text
      then ok (answer_AlreadyFound s t text)
    else if case_NotInVocabulary WORDS contains_missing s j text
      then ok (answer_NotInVocabulary s t text)
    else ok (answer_NotFromJumbleLetters s j t text).
Proof.
  intros Hj Ht.
  unfold check, case_AlreadyFound, case_NotInVocabulary, case_NewMatch.
  rewrite Hj, Ht. cbv zeta.
  destruct (len (get_matches s) >=? t); [reflexivity|].
  destruct (Vocab.has WORDS text), (py_in text (get_matches s)),
    (LetterBag.contains contains_missing (LetterBag.construct j) text);
    reflexivity.
Qed.

Lemma geb_false (a b : Z) : (a >=? b) = false ↔ a < b.
Proof. rewrite Z.geb_leb. apply Z.leb_gt. Qed.

Lemma geb_true (a b : Z) : (a >=? b) = true ↔ b ≤ a.
Proof. rewrite Z.geb_leb. apply Z.leb_le. Qed.

Lemma py_in_true (x : arg) (l : list arg) : py_in x l = true ↔ x ∈ l.
Proof. unfold py_in. apply bool_decide_eq_true. Qed.

Lemma py_in_false (x : arg) (l : list arg) : py_in x l = false ↔ x ∉ l.
Proof. unfold py_in. apply bool_decide_eq_false. Qed.

(** Every answer of [check] comes from a session that holds a jumble and
    a target. *)
Lemma check_ok_started (s : session) (text : arg) (a : session * json * Outcome) :
  check WORDS contains_missing s text = ok a ->
  ∃ (j : string) (t : Z), jumble s = Some j ∧ target_count s = Some t.
Proof.
  intros H. destruct (jumble s) as [j|] eqn:Hj.
  - destruct (target_count s) as [t|] eqn:Ht; [by eauto|].
    by rewrite (check_no_target s text j Hj Ht) in H.
  - by rewrite (check_no_jumble s text Hj) in H.
Qed.

(** The guards of the four answers exclude each other and leave no case
    out. *)
Lemma cases_partition (s : session) (j : string) (text : arg) :
  (Nat.b2n (case_NewMatch WORDS contains_missing s j text)
   + Nat.b2n (case_AlreadyFound WORDS contains_missing s j text)
   + Nat.b2n (case_NotInVocabulary WORDS contains_missing s j text)
   + Nat.b2n (case_NotFromJumbleLetters WORDS contains_missing s j text))%nat = 1%nat.
Proof.
  unfold case_NotFromJumbleLetters, case_NotInVocabulary, case_AlreadyFound, case_NewMatch.
  destruct (Vocab.has WORDS text), (py_in text (get_matches s)),
    (LetterBag.contains contains_missing (LetterBag.construct j) text);
    reflexivity.
Qed.

End CheckFacts.

(** ** Claims about a single submission *)

(** C1.  A submission made while the quota is already met (the session
    holds at least [target_count] matches) is answered with the success
    redirect whatever the candidate is; the answer does not depend on the
    candidate, on the vocabulary or on the letter test. *)
Theorem check_quota_met_is_Success
    (WORDS : Vocab.t) (contains_missing : LetterBag.t -> bool)
    (s : session) (text : arg) (j : string) (t : Z) :
  jumble s = Some j -> target_count s = Some t -> len (get_matches s) >= t ->
  check WORDS contains_missing s text
  = ok (s,
        JsonRedirect "Congrats you solved it, press any character to continue!"
          "/success" true,
        Success)
  ∧ ∀ (WORDS' : Vocab.t) (contains_missing' : LetterBag.t -> bool) (text' : arg),
      check WORDS' contains_missing' s text' = check WORDS contains_missing s text.
Proof.
  intros Hj Ht Hq.
  assert (Hge : (len (get_matches s) >=? t) = true) by (apply geb_true; lia).
  split.
  - rewrite (check_started _ _ _ _ _ _ Hj Ht), Hge. reflexivity.
  - intros W' cm' text'.
    rewrite !(check_started _ _ _ _ _ _ Hj Ht), Hge. reflexivity.
Qed.

Lemma check_quota_met_witness :
  check Example.WORDS Example.never Example.finished (Some "zebra")
  = ok (Example.finished,
        JsonRedirect "Congrats you solved it, press any character to continue!"
          "/success" true,
        Success)
  ∧ ∀ (WORDS' : Vocab.t) (contains_missing' : LetterBag.t -> bool) (text' : arg),
      check WORDS' contains_missing' Example.finished text'
      = check Example.WORDS Example.never Example.finished (Some "zebra").
Proof.
  apply (check_quota_met_is_Success Example.WORDS Example.never Example.finished
           (Some "zebra") "catdog" 2).
  - reflexivity.
  - reflexivity.
  - vm_compute. discriminate.
Defined.

(** C2.  While the quota is not yet met, a candidate that is in the
    vocabulary, whose letters are contained in the jumble's letters and
    that is not among the matches is appended to the matches, and the
    answer is the new-match answer for that candidate. *)
Theorem check_new_match
    (WORDS : Vocab.t) (contains_missing : LetterBag.t -> bool)
    (s : session) (text : arg) (j : string) (t : Z) :
  jumble s = Some j -> target_count s = Some t -> len (get_matches s) < t ->
  Vocab.has WORDS text = true ->
  LetterBag.contains contains_missing (LetterBag.construct j) text = true ->
  text ∉ get_matches s ->
  check WORDS contains_missing s text
  = ok (Session (Some j) (Some t) (Some (get_matches s ++ [text])%list),
        JsonData (ResponseData false false (get_matches s ++ [text])%list t
                    (Some ("Congrats you found the match: " +:+ fmt text
                             +:+ ". Clear the box to continue"))),
        NewMatch text).
Proof.
  intros Hj Ht Hq Hhas Hbag Hnew.
  rewrite (check_started _ _ _ _ _ _ Hj Ht).
  apply geb_false in Hq. rewrite Hq.
  unfold case_NewMatch. rewrite Hhas, Hbag.
  apply py_in_false in Hnew. rewrite Hnew. simpl.
  unfold answer_NewMatch, set_matches. by rewrite Hj, Ht.
Qed.

Lemma check_new_match_witness :
  check Example.WORDS Example.never Example.started (Some "cat")
  = ok (Session (Some "catdog") (Some 2) (Some [Some "cat"]),
        JsonData (ResponseData false false [Some "cat"] 2
                    (Some "Congrats you found the match: cat. Clear the box to continue")),
        NewMatch (Some "cat")).
Proof.
  apply (check_new_match Example.WORDS Example.never Example.started
           (Some "cat") "catdog" 2).
  - reflexivity.
  - reflexivity.
  - reflexivity.
  - reflexivity.
  - reflexivity.
  - apply not_elem_of_nil.
Defined.

(** C3.  The final branch of [check] (the assertion) is reached for no
    session and no candidate.  While the quota is not yet met, exactly one
    of the four guards holds for the candidate, and [check] gives the answer
    of that guard. *)
Theorem check_classification_exhaustive
    (WORDS : Vocab.t) (contains_missing : LetterBag.t -> bool) :
  (∀ (s : session) (text : arg),
      check WORDS contains_missing s text ≠ raise AssertionError)
  ∧ (∀ (s : session) (text : arg) (j : string) (t : Z),
        jumble s = Some j -> target_count s = Some t -> len (get_matches s) < t ->
        (Nat.b2n (case_NewMatch WORDS contains_missing s j text)
         + Nat.b2n (case_AlreadyFound WORDS contains_missing s j text)
         + Nat.b2n (case_NotInVocabulary WORDS contains_missing s j text)
         + Nat.b2n (case_NotFromJumbleLetters WORDS contains_missing s j text))%nat = 1%nat
        ∧ check WORDS contains_missing s text
          = ok (if case_NewMatch WORDS contains_missing s j text
                  then answer_NewMatch s t text
                else if case_AlreadyFound WORDS contains_missing s j text
                  then answer_AlreadyFound s t text
                else if case_NotInVocabulary WORDS contains_missing s j text
                  then answer_NotInVocabulary s t text
                else answer_NotFromJumbleLetters s j t text)).
Proof.
  split.
  - intros s text.
    destruct (jumble s) as [j|] eqn:Hj;
      [|by rewrite (check_no_jumble _ _ _ _ Hj)].
    destruct (target_count s) as [t|] eqn:Ht;
      [|by rewrite (check_no_target _ _ _ _ _ Hj Ht)].
    rewrite (check_started _ _ _ _ _ _ Hj Ht).
    repeat case_match; discriminate.
  - intros s text j t Hj Ht Hq. split; [apply cases_partition|].
    rewrite (check_started _ _ _ _ _ _ Hj Ht).
    apply geb_false in Hq. rewrite Hq.
    repeat case_match; reflexivity.
Qed.

Lemma check_classification_witness :
  (Nat.b2n (case_NewMatch Example.WORDS Example.never Example.started "catdog" (Some "bird"))
   + Nat.b2n (case_AlreadyFound Example.WORDS Example.never Example.started "catdog" (Some "bird"))
   + Nat.b2n (case_NotInVocabulary Example.WORDS Example.never Example.started "catdog" (Some "bird"))
   + Nat.b2n (case_NotFromJumbleLetters Example.WORDS Example.never Example.started "catdog"
                (Some "bird")))%nat = 1%nat
  ∧ check Example.WORDS Example.never Example.started (Some "bird")
    = ok (if case_NewMatch Example.WORDS Example.never Example.started "catdog" (Some "bird")
            then answer_NewMatch Example.started 2 (Some "bird")
          else if case_AlreadyFound Example.WORDS Example.never Example.started "catdog"
                    (Some "bird")
            then answer_AlreadyFound Example.started 2 (Some "bird")
          else if case_NotInVocabulary Example.WORDS Example.never Example.started "catdog"
                    (Some "bird")
            then answer_NotInVocabulary Example.started 2 (Some "bird")
          else answer_NotFromJumbleLetters Example.started "catdog" 2 (Some "bird")).
Proof.
  apply (proj2 (check_classification_exhaustive Example.WORDS Example.never)
           Example.started (Some "bird") "catdog" 2).
  - reflexivity.
  - reflexivity.
  - reflexivity.
Defined.

(** C10.  A submission that is answered leaves the session as it was,
    unless the answer is a new match; then the jumble and the target stay
    and the candidate is appended to the matches. *)
Theorem check_frame
    (WORDS : Vocab.t) (contains_missing : LetterBag.t -> bool)
    (s : session) (text : arg) (s' : session) (js : json) (o : Outcome) :
  check WORDS contains_missing s text = ok (s', js, o) ->
  match o with
  | NewMatch w =>
      w = text ∧ jumble s' = jumble s ∧ target_count s' = target_count s
      ∧ matches s' = Some (get_matches s ++ [text])%list
  | Success | AlreadyFound _ | NotInVocabulary _ | NotFromJumbleLetters _ _ =>
      s' = s
  end.
Proof.
  intros H. destruct (check_ok_started _ _ _ _ _ H) as (j & t & Hj & Ht).
  rewrite (check_started _ _ _ _ _ _ Hj Ht) in H.
  repeat case_match; inversion H; subst; simpl; auto.
Qed.

Lemma check_frame_witness :
  Some "cat" = Some "cat"
  ∧ jumble (Session (Some "catdog") (Some 2) (Some [Some "cat"])) = jumble Example.started
  ∧ target_count (Session (Some "catdog") (Some 2) (Some [Some "cat"]))
    = target_count Example.started
  ∧ matches (Session (Some "catdog") (Some 2) (Some [Some "cat"]))
    = Some (get_matches Example.started ++ [Some "cat"])%list.
Proof.
  apply (check_frame Example.WORDS Example.never Example.started (Some "cat")
           (Session (Some "catdog") (Some 2) (Some [Some "cat"]))
           (JsonData (ResponseData false false [Some "cat"] 2
              (Some "Congrats you found the match: cat. Clear the box to continue")))
           (NewMatch (Some "cat"))).
  reflexivity.
Defined.

(** ** Starting a game *)

Section IndexFacts.
Context {rng : Type}.
Context (jumbled : list string -> Z -> option Z -> rng -> result string * rng).
Context (WORDS : Vocab.t) (SEED : option Z) (SUCCESS_AT_COUNT : Z).
Context (contains_missing : LetterBag.t -> bool).

(** [index] stores the target before anything can raise. *)
Lemma index_stores_target (s : session) (r : rng) :
  target_count (index jumbled WORDS SEED SUCCESS_AT_COUNT s r).1.1
  = Some (Z.min (len (Vocab.as_list WORDS)) SUCCESS_AT_COUNT).
Proof.
  unfold index.
  destruct (jumbled _ _ _ r) as [[e|j] r']; [reflexivity|].
  simpl. destruct (_ >? 0); reflexivity.
Qed.

(** A completed [index] leaves a session with the generator's jumble, a
    positive target and no matches. *)
Lemma index_ok_inv (s0 : session) (r0 : rng) (s : session) (r : rng) (p : page) :
  index jumbled WORDS SEED SUCCESS_AT_COUNT s0 r0 = (s, r, ok p) ->
  ∃ j : string,
    jumbled (Vocab.as_list WORDS) (Z.min (len (Vocab.as_list WORDS)) SUCCESS_AT_COUNT)
      (seed_arg SEED) r0 = (ok j, r)
    ∧ s = Session (Some j) (Some (Z.min (len (Vocab.as_list WORDS)) SUCCESS_AT_COUNT))
            (Some [])
    ∧ 0 < Z.min (len (Vocab.as_list WORDS)) SUCCESS_AT_COUNT.
Proof.
  unfold index.
  destruct (jumbled _ _ _ r0) as [[e|j] r'] eqn:Hgen; [discriminate|].
  simpl. destruct (_ >? 0) eqn:Hpos; simpl; [|discriminate].
  intros H. inversion H; subst. exists j. repeat split.
  apply Z.gtb_lt in Hpos. lia.
Qed.

Lemma len_app_one (ms : list arg) (x : arg) : len (ms ++ [x]) = len ms + 1.
Proof. unfold len. rewrite length_app. simpl. lia. Qed.

Lemma len_nil : len (@nil arg) = 0.
Proof. reflexivity. Qed.

Lemma min_len_positive (ws : list string) (n : Z) :
  0 < Z.min (len ws) n ↔ ws ≠ [] ∧ 0 < n.
Proof.
  unfold len. destruct ws as [|w ws]; simpl.
  - split; [lia|]. intros [H _]. by destruct H.
  - split; [intros H; split; [done|lia]|lia].
Qed.

(** The invariant of the found words holds after [index] and is kept by
    every answered submission. *)
Lemma reachable_inv (s : session) :
  reachable jumbled WORDS SEED SUCCESS_AT_COUNT contains_missing s ->
  session_inv WORDS contains_missing s.
Proof.
  induction 1 as [s0 r0 s r p Hstart | s text s' js o Hreach IH Hcheck].
  - destruct (index_ok_inv _ _ _ _ _ Hstart) as (j & _ & -> & Hpos).
    exists j, (Z.min (len (Vocab.as_list WORDS)) SUCCESS_AT_COUNT), [].
    repeat split; [rewrite len_nil; lia | constructor | constructor].
  - destruct IH as (j & t & ms & Hj & Ht & Hms & Hlen & Hnd & Hall).
    rewrite (check_started _ _ _ _ _ _ Hj Ht) in Hcheck.
    assert (Hget : get_matches s = ms) by (unfold get_matches; by rewrite Hms).
    destruct (len (get_matches s) >=? t) eqn:Hq.
    { inversion Hcheck; subst s'. by exists j, t, ms. }
    apply geb_false in Hq. rewrite Hget in Hq.
    destruct (case_NewMatch WORDS contains_missing s j text) eqn:Hnew.
    + inversion Hcheck; subst s' js o. rewrite Hget.
      unfold case_NewMatch in Hnew. rewrite Hget in Hnew.
      apply andb_true_iff in Hnew as [Hnew Hnotin].
      apply andb_true_iff in Hnew as [Hhas Hbag].
      apply negb_true_iff, py_in_false in Hnotin.
      exists j, t, (ms ++ [text])%list. unfold set_matches; simpl.
      repeat split; try done.
      * rewrite len_app_one. lia.
      * apply NoDup_app. repeat split; [done| |apply NoDup_singleton].
        intros x Hx Hx'. apply list_elem_of_singleton in Hx'. by subst x.
      * apply Forall_app. split; [done|]. by constructor.
    + assert (s' = s) as ->
        by (repeat case_match; by inversion Hcheck).
      by exists j, t, ms.
Qed.

End IndexFacts.

(** ** Claims about sessions *)

(** C4.  In every session reached by a completed start followed by any
    answered submissions, the matches are at most [target_count] many, hold
    no word twice, and every one of them is in the vocabulary and can be
    made from the letters of the session's jumble (which no submission
    changes). *)
Theorem reachable_matches_invariant {rng : Type}
    (jumbled : list string -> Z -> option Z -> rng -> result string * rng)
    (WORDS : Vocab.t) (SEED : option Z) (SUCCESS_AT_COUNT : Z)
    (contains_missing : LetterBag.t -> bool) (s : session) :
  reachable jumbled WORDS SEED SUCCESS_AT_COUNT contains_missing s ->
  ∃ (j : string) (t : Z) (ms : list arg),
    jumble s = Some j ∧ target_count s = Some t ∧ matches s = Some ms
    ∧ len ms ≤ t
    ∧ NoDup ms
    ∧ ∀ m : arg, m ∈ ms ->
        Vocab.has WORDS m = true
        ∧ LetterBag.contains contains_missing (LetterBag.construct j) m = true.
Proof.
  intros Hreach.
  destruct (reachable_inv _ _ _ _ _ _ Hreach)
    as (j & t & ms & Hj & Ht & Hms & Hlen & Hnd & Hall).
  exists j, t, ms. repeat split; try done.
  - by apply (proj1 (Forall_forall _ _) Hall m).
  - by apply (proj1 (Forall_forall _ _) Hall m).
Qed.

Lemma reachable_matches_witness :
  ∃ (j : string) (t : Z) (ms : list arg),
    jumble (Session (Some "catdog") (Some 2) (Some [Some "cat"])) = Some j
    ∧ target_count (Session (Some "catdog") (Some 2) (Some [Some "cat"])) = Some t
    ∧ matches (Session (Some "catdog") (Some 2) (Some [Some "cat"])) = Some ms
    ∧ len ms ≤ t
    ∧ NoDup ms
    ∧ ∀ m : arg, m ∈ ms ->
        Vocab.has Example.WORDS m = true
        ∧ LetterBag.contains Example.never (LetterBag.construct j) m = true.
Proof.
  apply (reachable_matches_invariant Example.plain_jumbled Example.WORDS None 2
           Example.never).
  apply (reach_submit Example.plain_jumbled Example.WORDS None 2 Example.never
           Example.started (Some "cat")
           (Session (Some "catdog") (Some 2) (Some [Some "cat"]))
           (JsonData (ResponseData false false [Some "cat"] 2
              (Some "Congrats you found the match: cat. Clear the box to continue")))
           (NewMatch (Some "cat"))).
  - apply (reach_start Example.plain_jumbled Example.WORDS None 2 Example.never
             empty_session tt Example.started tt (render_template "vocab.html")).
    reflexivity.
  - reflexivity.
Defined.

(** C6, as the code has it.  [index] sets the session's target to the
    minimum of the vocabulary size and the configured threshold.  That
    target is positive exactly when the vocabulary is non-empty and the
    threshold is positive, and [index] returns its page only then: the
    assertion of line 57 raises for any other target. *)
Theorem index_target_count {rng : Type}
    (jumbled : list string -> Z -> option Z -> rng -> result string * rng)
    (WORDS : Vocab.t) (SEED : option Z) (SUCCESS_AT_COUNT : Z)
    (s : session) (r : rng) :
  target_count (index jumbled WORDS SEED SUCCESS_AT_COUNT s r).1.1
  = Some (Z.min (len (Vocab.as_list WORDS)) SUCCESS_AT_COUNT)
  ∧ (is_ok (index jumbled WORDS SEED SUCCESS_AT_COUNT s r).2 = true ->
     0 < Z.min (len (Vocab.as_list WORDS)) SUCCESS_AT_COUNT)
  ∧ (0 < Z.min (len (Vocab.as_list WORDS)) SUCCESS_AT_COUNT
     ↔ Vocab.as_list WORDS ≠ [] ∧ 0 < SUCCESS_AT_COUNT).
Proof.
  split; [apply index_stores_target|]. split; [|apply min_len_positive].
  destruct (index jumbled WORDS SEED SUCCESS_AT_COUNT s r) as [[s' r'] [e|p]] eqn:Hidx;
    simpl; [discriminate|].
  intros _. by destruct (index_ok_inv _ _ _ _ _ _ _ _ _ Hidx) as (j & _ & _ & Hpos).
Qed.

Lemma index_target_count_witness :
  target_count (index Example.plain_jumbled Example.WORDS None 2 empty_session tt).1.1
  = Some (Z.min (len (Vocab.as_list Example.WORDS)) 2)
  ∧ (is_ok (index Example.plain_jumbled Example.WORDS None 2 empty_session tt).2 = true ->
     0 < Z.min (len (Vocab.as_list Example.WORDS)) 2)
  ∧ (0 < Z.min (len (Vocab.as_list Example.WORDS)) 2
     ↔ Vocab.as_list Example.WORDS ≠ [] ∧ 0 < 2).
Proof.
  exact (index_target_count Example.plain_jumbled Example.WORDS None 2 empty_session tt).
Defined.

(** C6, as the claim states it, fails: with the one-word vocabulary and a
    configured threshold of [0] the vocabulary is non-empty, and the target
    that [index] stores is [0]. *)
Lemma index_zero_threshold_counterexample :
  Vocab.as_list Example.one_word ≠ []
  ∧ target_count (index Example.plain_jumbled Example.one_word None 0 empty_session tt).1.1
    = Some 0
  ∧ ¬ (0 < 0)
  ∧ (index Example.plain_jumbled Example.one_word None 0 empty_session tt).2
    = raise InvalidArgument.
Proof.
  split; [discriminate|]. split; [reflexivity|]. split; [lia|reflexivity].
Qed.

(** C7.  Vocabulary membership of a missing candidate is [False].  In a
    session reached by a start and answered submissions, a submission with
    missing text is never answered by an exception, and while the quota is
    not yet met its answer is the not-in-vocabulary answer. *)
Theorem missing_text_not_in_vocabulary {rng : Type}
    (jumbled : list string -> Z -> option Z -> rng -> result string * rng)
    (WORDS : Vocab.t) (SEED : option Z) (SUCCESS_AT_COUNT : Z)
    (contains_missing : LetterBag.t -> bool) :
  Vocab.has WORDS None = false
  ∧ ∀ s : session,
      reachable jumbled WORDS SEED SUCCESS_AT_COUNT contains_missing s ->
      is_ok (check WORDS contains_missing s None) = true
      ∧ (quota_met s = false ->
         ∃ t : Z, target_count s = Some t
           ∧ check WORDS contains_missing s None
             = ok (s,
                   JsonData (ResponseData false false (get_matches s) t
                               (Some "None isn't in the list of words")),
                   NotInVocabulary None)).
Proof.
  split; [reflexivity|]. intros s Hreach.
  destruct (reachable_inv _ _ _ _ _ _ Hreach)
    as (j & t & ms & Hj & Ht & Hms & Hlen & Hnd & Hall).
  assert (Hget : get_matches s = ms) by (unfold get_matches; by rewrite Hms).
  assert (Hnotin : py_in None (get_matches s) = false).
  { apply py_in_false. rewrite Hget. intros Hin.
    by destruct (proj1 (Forall_forall _ _) Hall None Hin) as [Hhas _]. }
  rewrite (check_started _ _ _ _ _ _ Hj Ht).
  unfold case_AlreadyFound, case_NotInVocabulary, case_NewMatch, quota_met.
  rewrite Ht, Hnotin. simpl.
  destruct (len (get_matches s) >=? t); simpl.
  - split; [reflexivity|discriminate].
  - split; [reflexivity|]. intros _. by exists t.
Qed.

Lemma missing_text_witness :
  is_ok (check Example.WORDS Example.never Example.started None) = true
  ∧ (quota_met Example.started = false ->
     ∃ t : Z, target_count Example.started = Some t
       ∧ check Example.WORDS Example.never Example.started None
         = ok (Example.started,
               JsonData (ResponseData false false (get_matches Example.started) t
                           (Some "None isn't in the list of words")),
               NotInVocabulary None)).
Proof.
  apply (proj2 (missing_text_not_in_vocabulary Example.plain_jumbled Example.WORDS None 2
                  Example.never) Example.started).
  apply (reach_start Example.plain_jumbled Example.WORDS None 2 Example.never
           empty_session tt Example.started tt (render_template "vocab.html")).
  reflexivity.
Defined.

(** ** The seed handed to the generator *)

(** The expression of line 53 passes the seed on exactly when it is a
    positive integer. *)
Lemma seed_arg_spec (SEED : option Z) :
  seed_arg SEED
  = match SEED with
    | Some z => if 0 <? z then Some z else None
    | None => None
    end.
Proof.
  destruct SEED as [z|]; [|reflexivity].
  unfold seed_arg, py_not.
  destruct (Z.eqb_spec z 0) as [->|Hne]; [reflexivity|].
  destruct (Z.ltb_spec z 0), (Z.ltb_spec 0 z); try reflexivity; lia.
Qed.

Lemma module_SEED_unparsable (int_of_str : string -> option Z) (text : string) :
  int_of_str text = None -> module_SEED int_of_str (CfgStr text) = ok None.
Proof. intros H. unfold module_SEED, py_int. by rewrite H. Qed.

(** A configured seed of [None] is not caught by [except ValueError]. *)
Lemma module_SEED_none (int_of_str : string -> option Z) :
  module_SEED int_of_str CfgNone = raise TypeError.
Proof. reflexivity. Qed.

Lemma index_calls_generator {rng : Type}
    (jumbled : list string -> Z -> option Z -> rng -> result string * rng)
    (WORDS : Vocab.t) (SEED : option Z) (SUCCESS_AT_COUNT : Z) (s : session) (r : rng) :
  (index jumbled WORDS SEED SUCCESS_AT_COUNT s r).1.2
  = (jumbled (Vocab.as_list WORDS) (Z.min (len (Vocab.as_list WORDS)) SUCCESS_AT_COUNT)
       (seed_arg SEED) r).2.
Proof.
  unfold index. destruct (jumbled _ _ _ r) as [[e|j] r']; [reflexivity|].
  simpl. destruct (_ >? 0); reflexivity.
Qed.

(** C8, at the seed [0].  The configured seed [0] is parsed to the integer
    [0], which is neither missing nor negative; line 53 turns it into
    [None], and the generator is called without a seed. *)
Theorem seed_zero_is_not_passed :
  (∀ int_of_str : string -> option Z, module_SEED int_of_str (CfgInt 0) = ok (Some 0))
  ∧ seed_arg (Some 0) = None
  ∧ (index Example.recording_jumbled Example.WORDS (Some 0) 2 empty_session []).1.2
    = [None]
  ∧ (index Example.recording_jumbled Example.WORDS (Some 1) 2 empty_session []).1.2
    = [Some 1].
Proof. repeat split. Qed.

(** ** The keystroke query *)

(** C9.  [keep_going] answers with the vocabulary membership of the
    candidate and nothing else: the answer is the same in any two sessions,
    and the session, its matches included, is left as it was. *)
Theorem keep_going_vocabulary_only (WORDS : Vocab.t) (text : arg) (s1 s2 : session) :
  (keep_going WORDS s1 text).2 = JsonResult (Vocab.has WORDS text)
  ∧ (keep_going WORDS s1 text).2 = (keep_going WORDS s2 text).2
  ∧ (keep_going WORDS s1 text).1 = s1
  ∧ matches (keep_going WORDS s1 text).1 = matches s1.
Proof. repeat split. Qed.

(** ** More about a single submission *)

Section CheckSteps.
Context (WORDS : Vocab.t) (contains_missing : LetterBag.t -> bool).

(** One served submission: the keys [jumble] and [target_count] stay, the
    matches grow by the word of a new match and by nothing else, and the
    answer is [Success] exactly on a met quota. *)
Lemma check_step (s : session) (text : arg) (j : string) (t : Z) :
  jumble s = Some j -> target_count s = Some t ->
  ∃ (s' : session) (js : json) (o : Outcome),
    check WORDS contains_missing s text = ok (s', js, o)
    ∧ jumble s' = Some j ∧ target_count s' = Some t
    ∧ get_matches s' = (get_matches s ++ new_word o)%list
    ∧ (o = Success ↔ t ≤ len (get_matches s)).
Proof.
  intros Hj Ht. rewrite (check_started _ _ _ _ _ _ Hj Ht).
  destruct (len (get_matches s) >=? t) eqn:Hq.
  { apply geb_true in Hq. eexists _, _, _. split; [reflexivity|].
    simpl. rewrite app_nil_r. by repeat split. }
  apply geb_false in Hq.
  repeat case_match; eexists _, _, _; (split; [reflexivity|]); simpl;
    rewrite ?app_nil_r; repeat split; try done; try lia.
Qed.

Lemma length_new_word (o : Outcome) : (length (new_word o) ≤ 1)%nat.
Proof. destruct o; simpl; lia. Qed.

Lemma len_app (l1 l2 : list arg) : len (l1 ++ l2) = len l1 + len l2.
Proof. unfold len. rewrite length_app. lia. Qed.

Lemma len_new_word_bounds (o : Outcome) : 0 ≤ len (new_word o) ≤ 1.
Proof. unfold len. pose proof (length_new_word o). lia. Qed.

End CheckSteps.

(** X1.  [check] answers exactly on the sessions that hold both a jumble
    and a target: without a jumble it raises [KeyError('jumble')] (line
    104), with a jumble and without a target [KeyError('target_count')]
    (line 110).  A missing [matches] key never makes it raise. *)
Theorem check_answers_iff_keys
    (WORDS : Vocab.t) (contains_missing : LetterBag.t -> bool)
    (s : session) (text : arg) :
  (is_ok (check WORDS contains_missing s text) = true
   ↔ is_Some (jumble s) ∧ is_Some (target_count s))
  ∧ (jumble s = None ->
     check WORDS contains_missing s text = raise (KeyError "jumble"))
  ∧ (is_Some (jumble s) -> target_count s = None ->
     check WORDS contains_missing s text = raise (KeyError "target_count")).
Proof.
  split; [|split].
  - destruct (jumble s) as [j|] eqn:Hj.
    + destruct (target_count s) as [t|] eqn:Ht.
      * destruct (check_step WORDS contains_missing s text j t Hj Ht)
          as (s' & js & o & -> & _).
        simpl. split; [by eauto|done].
      * rewrite (check_no_target _ _ _ _ _ Hj Ht). simpl.
        split; [done|]. intros [_ [x Hx]]. discriminate.
    + rewrite (check_no_jumble _ _ _ _ Hj). simpl.
      split; [done|]. intros [[x Hx] _]. discriminate.
  - apply check_no_jumble.
  - intros [j Hj] Ht. by apply (check_no_target _ _ _ _ j).
Qed.

(** X2.  While the quota is not met, the answer names its cause: a new
    match exactly for a vocabulary word made from the jumble's letters and
    not yet found; already-found exactly for a candidate in the matches,
    whatever the vocabulary and the letters say; not-in-vocabulary exactly
    for a candidate outside the matches and the vocabulary; and the letters
    answer exactly for a vocabulary word outside the matches that the
    jumble's letters do not give. *)
Theorem check_outcome_characterised
    (WORDS : Vocab.t) (contains_missing : LetterBag.t -> bool)
    (s : session) (text : arg) (j : string) (t : Z) :
  jumble s = Some j -> target_count s = Some t -> len (get_matches s) < t ->
  ∃ (s' : session) (js : json) (o : Outcome),
    check WORDS contains_missing s text = ok (s', js, o)
    ∧ (o = NewMatch text
       ↔ Vocab.has WORDS text = true
         ∧ LetterBag.contains contains_missing (LetterBag.construct j) text = true
         ∧ text ∉ get_matches s)
    ∧ (o = AlreadyFound text ↔ text ∈ get_matches s)
    ∧ (o = NotInVocabulary text
       ↔ (text ∉ get_matches s) ∧ Vocab.has WORDS text = false)
    ∧ (o = NotFromJumbleLetters text j
       ↔ (text ∉ get_matches s) ∧ Vocab.has WORDS text = true
         ∧ LetterBag.contains contains_missing (LetterBag.construct j) text = false).
Proof.
  intros Hj Ht Hq. rewrite (check_started _ _ _ _ _ _ Hj Ht).
  apply geb_false in Hq. rewrite Hq.
  unfold case_AlreadyFound, case_NotInVocabulary, case_NewMatch.
  destruct (py_in text (get_matches s)) eqn:Hin;
    [apply py_in_true in Hin|apply py_in_false in Hin];
    destruct (Vocab.has WORDS text),
      (LetterBag.contains contains_missing (LetterBag.construct j) text);
    simpl; eexists _, _, _; (split; [reflexivity|]);
    repeat split; try done; try tauto; intros; destruct_and?; try done.
Qed.

Lemma check_outcome_witness :
  ∃ (s' : session) (js : json) (o : Outcome),
    check Example.WORDS Example.never Example.started (Some "bird") = ok (s', js, o)
    ∧ (o = NewMatch (Some "bird")
       ↔ Vocab.has Example.WORDS (Some "bird") = true
         ∧ LetterBag.contains Example.never (LetterBag.construct "catdog") (Some "bird")
           = true
         ∧ Some "bird" ∉ get_matches Example.started)
    ∧ (o = AlreadyFound (Some "bird") ↔ Some "bird" ∈ get_matches Example.started)
    ∧ (o = NotInVocabulary (Some "bird")
       ↔ (Some "bird" ∉ get_matches Example.started)
         ∧ Vocab.has Example.WORDS (Some "bird") = false)
    ∧ (o = NotFromJumbleLetters (Some "bird") "catdog"
       ↔ (Some "bird" ∉ get_matches Example.started)
         ∧ Vocab.has Example.WORDS (Some "bird") = true
         ∧ LetterBag.contains Example.never (LetterBag.construct "catdog") (Some "bird")
           = false).
Proof.
  apply (check_outcome_characterised Example.WORDS Example.never Example.started
           (Some "bird") "catdog" 2).
  - reflexivity.
  - reflexivity.
  - reflexivity.
Defined.

(** X3.  What the client is sent agrees with what the session holds after
    the request.  A data response carries the matches and the target as
    stored after the call (so the list of a new match already has the new
    word), a message, and [result] and [redirect_url] both [False]; the
    redirect response is sent on [Success] only, with [result = True]. *)
Theorem check_response_reflects_session
    (WORDS : Vocab.t) (contains_missing : LetterBag.t -> bool)
    (s : session) (text : arg) (s' : session) (js : json) (o : Outcome) :
  check WORDS contains_missing s text = ok (s', js, o) ->
  match js with
  | JsonData d =>
      rd_matches d = get_matches s' ∧ Some (rd_target d) = target_count s'
      ∧ rd_result d = false ∧ rd_redirect_url d = false
      ∧ is_Some (rd_message d) ∧ o ≠ Success
  | JsonRedirect m u r => o = Success ∧ r = true ∧ u = "/success" ∧ s' = s
  | JsonResult _ => False
  end.
Proof.
  intros H. destruct (check_ok_started _ _ _ _ _ H) as (j & t & Hj & Ht).
  rewrite (check_started _ _ _ _ _ _ Hj Ht) in H.
  repeat case_match; inversion H; subst; simpl; rewrite ?Ht; by eauto 10.
Qed.

Lemma check_response_witness :
  rd_matches (ResponseData false false [Some "cat"] 2
                (Some "Congrats you found the match: cat. Clear the box to continue"))
  = get_matches (Session (Some "catdog") (Some 2) (Some [Some "cat"]))
  ∧ Some (rd_target (ResponseData false false [Some "cat"] 2
                       (Some "Congrats you found the match: cat. Clear the box to continue")))
    = target_count (Session (Some "catdog") (Some 2) (Some [Some "cat"]))
  ∧ rd_result (ResponseData false false [Some "cat"] 2
                 (Some "Congrats you found the match: cat. Clear the box to continue"))
    = false
  ∧ rd_redirect_url (ResponseData false false [Some "cat"] 2
                       (Some "Congrats you found the match: cat. Clear the box to continue"))
    = false
  ∧ is_Some (rd_message (ResponseData false false [Some "cat"] 2
                           (Some "Congrats you found the match: cat. Clear the box to continue")))
  ∧ NewMatch (Some "cat") ≠ Success.
Proof.
  apply (check_response_reflects_session Example.WORDS Example.never Example.started
           (Some "cat")
           (Session (Some "catdog") (Some 2) (Some [Some "cat"]))
           (JsonData (ResponseData false false [Some "cat"] 2
              (Some "Congrats you found the match: cat. Clear the box to continue")))
           (NewMatch (Some "cat"))).
  reflexivity.
Defined.

(** X4.  A session without the key [matches] is served as one whose
    matches are the empty list (the default of line 105): the response and
    the outcome are the same.  A new match stores the same session in both
    cases; any other answer leaves the key missing. *)
Theorem check_missing_matches_default
    (WORDS : Vocab.t) (contains_missing : LetterBag.t -> bool)
    (s : session) (text : arg) :
  matches s = None ->
  check WORDS contains_missing s text
  = match check WORDS contains_missing (set_matches s []) text with
    | inl e => raise e
    | inr (s2, js, NewMatch w) => ok (s2, js, NewMatch w)
    | inr (_, js, o) => ok (s, js, o)
    end.
Proof.
  intros Hms. destruct s as [[j|] [t|] ms]; simpl in Hms; subst ms; try reflexivity.
  rewrite (check_started _ _ (Session (Some j) (Some t) None) text j t eq_refl eq_refl).
  rewrite (check_started _ _ (set_matches (Session (Some j) (Some t) None) []) text j t
             eq_refl eq_refl).
  unfold case_AlreadyFound, case_NotInVocabulary, case_NewMatch, answer_Success,
    answer_NewMatch, answer_AlreadyFound, answer_NotInVocabulary,
    answer_NotFromJumbleLetters, get_matches, set_matches, ok. simpl.
  destruct (len [] >=? t); [reflexivity|].
  destruct (Vocab.has WORDS text),
    (LetterBag.contains contains_missing (LetterBag.construct j) text),
    (py_in text []); reflexivity.
Qed.

Lemma check_missing_matches_witness :
  check Example.WORDS Example.never (Session (Some "catdog") (Some 2) None) (Some "cat")
  = match check Example.WORDS Example.never
            (set_matches (Session (Some "catdog") (Some 2) None) []) (Some "cat") with
    | inl e => raise e
    | inr (s2, js, NewMatch w) => ok (s2, js, NewMatch w)
    | inr (_, js, o) => ok (Session (Some "catdog") (Some 2) None, js, o)
    end.
Proof.
  apply (check_missing_matches_default Example.WORDS Example.never
           (Session (Some "catdog") (Some 2) None) (Some "cat")).
  reflexivity.
Defined.

(** X5.  Sending a candidate again right after it was accepted as a new
    match never adds it twice: the second answer is [Success] when the
    first one met the quota and already-found otherwise, and the session
    stays as the first answer left it. *)
Theorem check_resubmit
    (WORDS : Vocab.t) (contains_missing : LetterBag.t -> bool)
    (s : session) (text : arg) (s' : session) (js : json) (w : arg) :
  check WORDS contains_missing s text = ok (s', js, NewMatch w) ->
  ∃ (js' : json) (o : Outcome),
    check WORDS contains_missing s' text = ok (s', js', o)
    ∧ o = (if quota_met s' then Success else AlreadyFound text).
Proof.
  intros H. destruct (check_ok_started _ _ _ _ _ H) as (j & t & Hj & Ht).
  rewrite (check_started _ _ _ _ _ _ Hj Ht) in H.
  assert (Hs' : s' = set_matches s (get_matches s ++ [text])%list)
    by (repeat case_match; by inversion H).
  subst s'.
  rewrite (check_started _ _ _ text j t) by (simpl; done).
  unfold quota_met, case_AlreadyFound, case_NewMatch, answer_Success,
    answer_AlreadyFound, get_matches. simpl. rewrite Ht.
  destruct (len (default [] (matches s) ++ [text]) >=? t);
    [eexists _, _; split; reflexivity|].
  assert (Hin : py_in text (default [] (matches s) ++ [text]) = true).
  { apply py_in_true, elem_of_app. right. by apply list_elem_of_singleton. }
  rewrite Hin, !andb_false_r. simpl. eexists _, _; split; reflexivity.
Qed.

Lemma check_resubmit_witness :
  ∃ (js' : json) (o : Outcome),
    check Example.WORDS Example.never
      (Session (Some "catdog") (Some 2) (Some [Some "cat"])) (Some "cat")
    = ok (Session (Some "catdog") (Some 2) (Some [Some "cat"]), js', o)
    ∧ o = (if quota_met (Session (Some "catdog") (Some 2) (Some [Some "cat"]))
           then Success else AlreadyFound (Some "cat")).
Proof.
  apply (check_resubmit Example.WORDS Example.never Example.started (Some "cat")
           (Session (Some "catdog") (Some 2) (Some [Some "cat"]))
           (JsonData (ResponseData false false [Some "cat"] 2
              (Some "Congrats you found the match: cat. Clear the box to continue")))
           (Some "cat")).
  reflexivity.
Defined.

(** ** Runs of submissions *)

Section RunFacts.
Context (WORDS : Vocab.t) (contains_missing : LetterBag.t -> bool).

Lemma new_words_cons (o : Outcome) (os : list Outcome) :
  new_words (o :: os) = (new_word o ++ new_words os)%list.
Proof. reflexivity. Qed.

Lemma submit_all_cons (s : session) (text : arg) (rest : list arg)
    (s1 : session) (js : json) (o : Outcome) :
  check WORDS contains_missing s text = ok (s1, js, o) ->
  submit_all WORDS contains_missing s (text :: rest)
  = match submit_all WORDS contains_missing s1 rest with
    | inl e => raise e
    | inr (s2, os) => ok (s2, o :: os)
    end.
Proof. intros H. simpl. by rewrite H. Qed.

(** Within the target, a run answers [Success] at the positions where the
    matches have reached the target, and nowhere else. *)
Lemma submit_all_positions (texts : list arg) (s : session) (j : string) (t : Z)
    (s' : session) (os : list Outcome) :
  jumble s = Some j -> target_count s = Some t -> len (get_matches s) ≤ t ->
  submit_all WORDS contains_missing s texts = ok (s', os) ->
  len (get_matches s) + len (new_words os) ≤ t
  ∧ ∀ (i : nat) (o : Outcome), os !! i = Some o ->
      (o = Success ↔ len (get_matches s) + len (new_words (take i os)) = t).
Proof.
  revert s s' os. induction texts as [|text rest IH]; intros s s' os Hj Ht Hle Hrun.
  - simpl in Hrun. inversion Hrun; subst. simpl. split; [unfold len in *; simpl; lia|].
    intros i o Hi. by rewrite lookup_nil in Hi.
  - destruct (check_step WORDS contains_missing s text j t Hj Ht)
      as (s1 & js & o1 & Hc & Hj1 & Ht1 & Hm1 & Hsucc).
    rewrite (submit_all_cons _ _ _ _ _ _ Hc) in Hrun.
    destruct (submit_all WORDS contains_missing s1 rest) as [e|[s2 os2]] eqn:Hrest;
      [discriminate|].
    inversion Hrun; subst s2 os. clear Hrun.
    assert (Hstep : len (get_matches s1) = len (get_matches s) + len (new_word o1))
      by (rewrite Hm1; apply len_app).
    assert (Hle1 : len (get_matches s1) ≤ t).
    { rewrite Hstep. pose proof (len_new_word_bounds o1) as Hb.
      destruct (Z.le_gt_cases t (len (get_matches s))) as [Hge|Hlt]; [|lia].
      rewrite (proj2 Hsucc Hge). unfold len. simpl. unfold len in Hle. lia. }
    destruct (IH s1 s' os2 Hj1 Ht1 Hle1 Hrest) as [Hbound Hpos].
    rewrite new_words_cons, len_app. split; [lia|].
    intros [|i] o Hi; simpl in Hi.
    + inversion Hi; subst o. change (take 0 (o1 :: os2)) with (@nil Outcome).
      rewrite Hsucc. unfold len in *. simpl. lia.
    + change (take (S i) (o1 :: os2)) with (o1 :: take i os2).
      rewrite new_words_cons, len_app, (Hpos i o Hi). lia.
Qed.

End RunFacts.

(** X6.  Once the quota is met nothing a player submits changes anything:
    every submission of a run is answered [Success] and the session after
    the run is the session before it. *)
Theorem submit_all_after_quota
    (WORDS : Vocab.t) (contains_missing : LetterBag.t -> bool)
    (s : session) (texts : list arg) (j : string) (t : Z) :
  jumble s = Some j -> target_count s = Some t -> t ≤ len (get_matches s) ->
  submit_all WORDS contains_missing s texts = ok (s, replicate (length texts) Success).
Proof.
  intros Hj Ht Hq. induction texts as [|text rest IH]; [reflexivity|].
  assert (Hc : check WORDS contains_missing s text = ok (answer_Success s)).
  { rewrite (check_started _ _ _ _ _ _ Hj Ht).
    by rewrite (proj2 (geb_true _ _) Hq). }
  by rewrite (submit_all_cons _ _ _ _ _ _ _ _ Hc), IH.
Qed.

Lemma submit_all_after_quota_witness :
  submit_all Example.WORDS Example.never Example.finished [Some "bird"; None; Some "cat"]
  = ok (Example.finished, replicate (length [Some "bird"; None; Some "cat"]) Success).
Proof.
  apply (submit_all_after_quota Example.WORDS Example.never Example.finished
           [Some "bird"; None; Some "cat"] "catdog" 2).
  - reflexivity.
  - reflexivity.
  - vm_compute. discriminate.
Defined.

(** X7.  A run of submissions on a session that holds a jumble and a target
    is served to its end without an exception, with one answer per
    submission.  It leaves the jumble and the target as they were, and the
    matches after it are the matches before it followed by the words of the
    new-match answers, in the order they were given. *)
Theorem submit_all_appends_new_words
    (WORDS : Vocab.t) (contains_missing : LetterBag.t -> bool)
    (s : session) (texts : list arg) (j : string) (t : Z) :
  jumble s = Some j -> target_count s = Some t ->
  ∃ (s' : session) (os : list Outcome),
    submit_all WORDS contains_missing s texts = ok (s', os)
    ∧ length os = length texts
    ∧ jumble s' = Some j ∧ target_count s' = Some t
    ∧ get_matches s' = (get_matches s ++ new_words os)%list.
Proof.
  revert s. induction texts as [|text rest IH]; intros s Hj Ht.
  - exists s, []. simpl. rewrite app_nil_r. by repeat split.
  - destruct (check_step WORDS contains_missing s text j t Hj Ht)
      as (s1 & js & o & Hc & Hj1 & Ht1 & Hm1 & _).
    destruct (IH s1 Hj1 Ht1) as (s' & os & Hrun & Hlen & Hj' & Ht' & Hm').
    exists s', (o :: os). rewrite (submit_all_cons _ _ _ _ _ _ _ _ Hc), Hrun.
    repeat split; try done.
    + simpl. by rewrite Hlen.
    + by rewrite Hm', Hm1, new_words_cons, app_assoc.
Qed.

Lemma submit_all_appends_witness :
  ∃ (s' : session) (os : list Outcome),
    submit_all Example.WORDS Example.never Example.started
      [Some "dog"; Some "bird"; Some "dog"; Some "cat"; Some "cat"] = ok (s', os)
    ∧ length os = length [Some "dog"; Some "bird"; Some "dog"; Some "cat"; Some "cat"]
    ∧ jumble s' = Some "catdog" ∧ target_count s' = Some 2
    ∧ get_matches s' = (get_matches Example.started ++ new_words os)%list.
Proof.
  apply (submit_all_appends_new_words Example.WORDS Example.never Example.started
           [Some "dog"; Some "bird"; Some "dog"; Some "cat"; Some "cat"] "catdog" 2).
  - reflexivity.
  - reflexivity.
Defined.

(** X8.  In a run that starts within the target, the new matches never
    take the matches beyond the target, and a submission is answered
    [Success] exactly when the matches found before it have reached the
    target.  In a game that starts with no matches, [Success] is therefore
    first seen right after [target_count] new matches, and never before. *)
Theorem submit_all_Success_positions
    (WORDS : Vocab.t) (contains_missing : LetterBag.t -> bool)
    (s : session) (texts : list arg) (j : string) (t : Z)
    (s' : session) (os : list Outcome) :
  jumble s = Some j -> target_count s = Some t -> len (get_matches s) ≤ t ->
  submit_all WORDS contains_missing s texts = ok (s', os) ->
  len (get_matches s) + len (new_words os) ≤ t
  ∧ ∀ (i : nat) (o : Outcome), os !! i = Some o ->
      (o = Success ↔ len (get_matches s) + len (new_words (take i os)) = t).
Proof.
  intros Hj Ht Hle Hrun.
  exact (submit_all_positions WORDS contains_missing texts s j t s' os Hj Ht Hle Hrun).
Qed.

Lemma submit_all_Success_witness :
  len (get_matches Example.started)
  + len (new_words [NewMatch (Some "dog"); NotFromJumbleLetters (Some "bird") "catdog";
                    AlreadyFound (Some "dog"); NewMatch (Some "cat"); Success]) ≤ 2
  ∧ ∀ (i : nat) (o : Outcome),
      [NewMatch (Some "dog"); NotFromJumbleLetters (Some "bird") "catdog";
       AlreadyFound (Some "dog"); NewMatch (Some "cat"); Success] !! i = Some o ->
      (o = Success
       ↔ len (get_matches Example.started)
         + len (new_words
                  (take i [NewMatch (Some "dog");
                           NotFromJumbleLetters (Some "bird") "catdog";
                           AlreadyFound (Some "dog"); NewMatch (Some "cat"); Success]))
         = 2).
Proof.
  apply (submit_all_Success_positions Example.WORDS Example.never Example.started
           [Some "dog"; Some "bird"; Some "dog"; Some "cat"; Some "cat"] "catdog" 2
           (Session (Some "catdog") (Some 2) (Some [Some "dog"; Some "cat"]))).
  - reflexivity.
  - reflexivity.
  - vm_compute. discriminate.
  - reflexivity.
Defined.

(** ** More about starting a game *)

(** X9.  What [index] leaves in the session.  When the generator returns a
    jumble, the session is that jumble, the target and an empty list of
    matches, whatever it held before: a new game discards the old one.
    When the generator raises, the target has already been overwritten
    while the jumble and the matches of the old game are still there. *)
Theorem index_session_after {rng : Type}
    (jumbled : list string -> Z -> option Z -> rng -> result string * rng)
    (WORDS : Vocab.t) (SEED : option Z) (SUCCESS_AT_COUNT : Z) (r : rng) :
  (∀ j : string,
      (jumbled (Vocab.as_list WORDS) (Z.min (len (Vocab.as_list WORDS)) SUCCESS_AT_COUNT)
         (seed_arg SEED) r).1 = ok j ->
      ∀ s0 : session,
        (index jumbled WORDS SEED SUCCESS_AT_COUNT s0 r).1.1
        = Session (Some j) (Some (Z.min (len (Vocab.as_list WORDS)) SUCCESS_AT_COUNT))
            (Some []))
  ∧ (∀ e : exn,
        (jumbled (Vocab.as_list WORDS) (Z.min (len (Vocab.as_list WORDS)) SUCCESS_AT_COUNT)
           (seed_arg SEED) r).1 = raise e ->
        ∀ s0 : session,
          (index jumbled WORDS SEED SUCCESS_AT_COUNT s0 r).1.1
          = Session (jumble s0)
              (Some (Z.min (len (Vocab.as_list WORDS)) SUCCESS_AT_COUNT)) (matches s0)).
Proof.
  split.
  - intros j Hgen s0. unfold index.
    destruct (jumbled _ _ _ r) as [[e|j'] r']; simpl in Hgen; [discriminate|].
    inversion Hgen; subst j'. simpl. destruct (_ >? 0); reflexivity.
  - intros e Hgen s0. unfold index.
    destruct (jumbled _ _ _ r) as [[e'|j'] r']; simpl in Hgen; [|discriminate].
    reflexivity.
Qed.

Lemma index_session_after_witness :
  (index Example.plain_jumbled Example.WORDS None 2 Example.finished tt).1.1
  = Session (Some "catdog") (Some (Z.min (len (Vocab.as_list Example.WORDS)) 2)) (Some [])
  ∧ (index Example.plain_jumbled Example.WORDS None 0 Example.finished tt).1.1
    = Session (jumble Example.finished)
        (Some (Z.min (len (Vocab.as_list Example.WORDS)) 0)) (matches Example.finished).
Proof.
  split.
  - apply (proj1 (index_session_after Example.plain_jumbled Example.WORDS None 2 tt)
             "catdog").
    reflexivity.
  - apply (proj2 (index_session_after Example.plain_jumbled Example.WORDS None 0 tt)
             InvalidArgument).
    reflexivity.
Defined.

(** X10.  How [index] ends.  An exception of the generator is passed on;
    otherwise the page is rendered when the target is positive and the
    assertion of line 57 raises when it is not.  The assertion of line 56
    never fails.  So [index] completes exactly when the generator returns,
    the vocabulary is non-empty and the configured count is positive. *)
Theorem index_result {rng : Type}
    (jumbled : list string -> Z -> option Z -> rng -> result string * rng)
    (WORDS : Vocab.t) (SEED : option Z) (SUCCESS_AT_COUNT : Z) (s : session) (r : rng) :
  (index jumbled WORDS SEED SUCCESS_AT_COUNT s r).2
  = match (jumbled (Vocab.as_list WORDS)
             (Z.min (len (Vocab.as_list WORDS)) SUCCESS_AT_COUNT) (seed_arg SEED) r).1 with
    | inl e => raise e
    | inr _ =>
        if 0 <? Z.min (len (Vocab.as_list WORDS)) SUCCESS_AT_COUNT
        then ok (render_template "vocab.html")
        else raise AssertionError
    end
  ∧ (is_ok (index jumbled WORDS SEED SUCCESS_AT_COUNT s r).2 = true
     ↔ is_ok (jumbled (Vocab.as_list WORDS)
                (Z.min (len (Vocab.as_list WORDS)) SUCCESS_AT_COUNT) (seed_arg SEED) r).1
       = true
       ∧ Vocab.as_list WORDS ≠ [] ∧ 0 < SUCCESS_AT_COUNT).
Proof.
  rewrite <- (min_len_positive (Vocab.as_list WORDS) SUCCESS_AT_COUNT).
  unfold index. destruct (jumbled _ _ _ r) as [[e|j] r']; simpl.
  - split; [reflexivity|]. split; [done|]. by intros [? _].
  - rewrite Z.gtb_ltb.
    destruct (Z.ltb_spec 0 (Z.min (len (Vocab.as_list WORDS)) SUCCESS_AT_COUNT));
      simpl; (split; [reflexivity|]); split; try done.
    intros [_ ?]. lia.
Qed.

(** X11.  Throughout a game the target is the one [index] computed: in
    every session reached by a completed start and answered submissions it
    is the minimum of the vocabulary size and the configured count, it is
    positive, and the number of matches exceeds neither the vocabulary size
    nor the configured count. *)
Theorem reachable_target_fixed {rng : Type}
    (jumbled : list string -> Z -> option Z -> rng -> result string * rng)
    (WORDS : Vocab.t) (SEED : option Z) (SUCCESS_AT_COUNT : Z)
    (contains_missing : LetterBag.t -> bool) (s : session) :
  reachable jumbled WORDS SEED SUCCESS_AT_COUNT contains_missing s ->
  target_count s = Some (Z.min (len (Vocab.as_list WORDS)) SUCCESS_AT_COUNT)
  ∧ 0 < Z.min (len (Vocab.as_list WORDS)) SUCCESS_AT_COUNT
  ∧ len (get_matches s) ≤ len (Vocab.as_list WORDS)
  ∧ len (get_matches s) ≤ SUCCESS_AT_COUNT.
Proof.
  intros Hreach.
  assert (Htarget :
    target_count s = Some (Z.min (len (Vocab.as_list WORDS)) SUCCESS_AT_COUNT)
    ∧ 0 < Z.min (len (Vocab.as_list WORDS)) SUCCESS_AT_COUNT).
  { induction Hreach as [s0 r0 s r p Hstart | s text s' js o Hreach IH Hcheck].
    - by destruct (index_ok_inv _ _ _ _ _ _ _ _ _ Hstart) as (j & _ & -> & Hpos).
    - destruct IH as [Ht Hpos]. split; [|done].
      destruct (check_ok_started _ _ _ _ _ Hcheck) as (j & t & Hj & Ht').
      destruct (check_step WORDS contains_missing s text j t Hj Ht')
        as (s1 & js1 & o1 & Hc & _ & Ht1 & _).
      rewrite Hc in Hcheck. inversion Hcheck; subst. congruence. }
  destruct Htarget as [Ht Hpos]. repeat split; try done.
  - destruct (reachable_inv _ _ _ _ _ _ Hreach)
      as (j & t & ms & _ & Ht' & Hms & Hlen & _).
    unfold get_matches. rewrite Hms. simpl. rewrite Ht in Ht'. inversion Ht'. lia.
  - destruct (reachable_inv _ _ _ _ _ _ Hreach)
      as (j & t & ms & _ & Ht' & Hms & Hlen & _).
    unfold get_matches. rewrite Hms. simpl. rewrite Ht in Ht'. inversion Ht'. lia.
Qed.

Lemma reachable_target_witness :
  target_count (Session (Some "catdog") (Some 2) (Some [Some "cat"]))
  = Some (Z.min (len (Vocab.as_list Example.WORDS)) 2)
  ∧ 0 < Z.min (len (Vocab.as_list Example.WORDS)) 2
  ∧ len (get_matches (Session (Some "catdog") (Some 2) (Some [Some "cat"])))
    ≤ len (Vocab.as_list Example.WORDS)
  ∧ len (get_matches (Session (Some "catdog") (Some 2) (Some [Some "cat"]))) ≤ 2.
Proof.
  apply (reachable_target_fixed Example.plain_jumbled Example.WORDS None 2 Example.never).
  apply (reach_submit Example.plain_jumbled Example.WORDS None 2 Example.never
           Example.started (Some "cat")
           (Session (Some "catdog") (Some 2) (Some [Some "cat"]))
           (JsonData (ResponseData false false [Some "cat"] 2
              (Some "Congrats you found the match: cat. Clear the box to continue")))
           (NewMatch (Some "cat"))).
  - apply (reach_start Example.plain_jumbled Example.WORDS None 2 Example.never
             empty_session tt Example.started tt (render_template "vocab.html")).
    reflexivity.
  - reflexivity.
Defined.

Lemma len_new_words_le (os : list Outcome) : len (new_words os) ≤ len os.
Proof.
  induction os as [|o os IH]; [reflexivity|].
  rewrite new_words_cons, len_app. pose proof (len_new_word_bounds o).
  unfold len in *. simpl length. lia.
Qed.

(** X12.  A game cannot be won in fewer submissions than its target: in
    the run of submissions that follows a completed [index], the answer at
    position [i] (counted from 0) is [Success] only if [i] is at least the
    target.  In particular the first submission is never answered
    [Success]. *)
Theorem no_Success_before_target {rng : Type}
    (jumbled : list string -> Z -> option Z -> rng -> result string * rng)
    (WORDS : Vocab.t) (SEED : option Z) (SUCCESS_AT_COUNT : Z)
    (contains_missing : LetterBag.t -> bool)
    (s0 : session) (r0 : rng) (s : session) (r : rng) (p : page)
    (texts : list arg) (s' : session) (os : list Outcome) (i : nat) :
  index jumbled WORDS SEED SUCCESS_AT_COUNT s0 r0 = (s, r, ok p) ->
  submit_all WORDS contains_missing s texts = ok (s', os) ->
  os !! i = Some Success ->
  Z.min (len (Vocab.as_list WORDS)) SUCCESS_AT_COUNT ≤ Z.of_nat i ∧ (0 < i)%nat.
Proof.
  intros Hstart Hrun Hi.
  destruct (index_ok_inv _ _ _ _ _ _ _ _ _ Hstart) as (j & _ & -> & Hpos).
  destruct (submit_all_positions WORDS contains_missing texts
              (Session (Some j)
                 (Some (Z.min (len (Vocab.as_list WORDS)) SUCCESS_AT_COUNT)) (Some []))
              j (Z.min (len (Vocab.as_list WORDS)) SUCCESS_AT_COUNT) s' os
              eq_refl eq_refl) as [_ Hposn]; [simpl; unfold len; simpl; lia|done|].
  pose proof (proj1 (Hposn i Success Hi) eq_refl) as Hcount.
  pose proof (len_new_words_le (take i os)) as Hle.
  assert (len (take i os) ≤ Z.of_nat i)
    by (unfold len; rewrite length_take; lia).
  unfold get_matches, len in *. simpl in Hcount. lia.
Qed.

Lemma no_Success_before_target_witness :
  Z.min (len (Vocab.as_list Example.WORDS)) 2 ≤ Z.of_nat 2 ∧ (0 < 2)%nat.
Proof.
  apply (no_Success_before_target Example.plain_jumbled Example.WORDS None 2 Example.never
           empty_session tt Example.started tt (render_template "vocab.html")
           [Some "dog"; Some "cat"; Some "cat"]
           (Session (Some "catdog") (Some 2) (Some [Some "dog"; Some "cat"]))
           [NewMatch (Some "dog"); NewMatch (Some "cat"); Success] 2).
  - reflexivity.
  - reflexivity.
  - reflexivity.
Defined.

(** ** The keystroke query and the submission *)

(** X13.  The keystroke query predicts one answer of the submission.  In a
    game in progress (a session reached by a start and answered
    submissions, quota not met) [keep_going] reports [matched = False] for
    a candidate exactly when submitting it is answered not-in-vocabulary.
    A report [matched = True] promises no new match: the letters of the
    jumble are not looked at by [keep_going]. *)
Theorem keep_going_predicts_check {rng : Type}
    (jumbled : list string -> Z -> option Z -> rng -> result string * rng)
    (WORDS : Vocab.t) (SEED : option Z) (SUCCESS_AT_COUNT : Z)
    (contains_missing : LetterBag.t -> bool) (s : session) (text : arg) :
  reachable jumbled WORDS SEED SUCCESS_AT_COUNT contains_missing s ->
  quota_met s = false ->
  ((keep_going WORDS s text).2 = JsonResult false
   ↔ ∃ (s' : session) (js : json),
       check WORDS contains_missing s text = ok (s', js, NotInVocabulary text)).
Proof.
  intros Hreach Hq.
  destruct (reachable_inv _ _ _ _ _ _ Hreach)
    as (j & t & ms & Hj & Ht & Hms & Hlen & Hnd & Hall).
  assert (Hget : get_matches s = ms) by (unfold get_matches; by rewrite Hms).
  unfold quota_met in Hq. rewrite Ht in Hq.
  rewrite (check_started _ _ _ _ _ _ Hj Ht), Hq.
  unfold keep_going, case_AlreadyFound, case_NotInVocabulary, case_NewMatch. simpl.
  destruct (Vocab.has WORDS text) eqn:Hhas.
  - split; [discriminate|]. intros (s' & js & Hck). revert Hck.
    destruct (py_in text (get_matches s)),
      (LetterBag.contains contains_missing (LetterBag.construct j) text);
      simpl; intros Hck; inversion Hck.
  - assert (Hnotin : py_in text (get_matches s) = false).
    { apply py_in_false. rewrite Hget. intros Hin.
      destruct (proj1 (Forall_forall _ _) Hall text Hin) as [Hhas' _]. congruence. }
    rewrite Hnotin. simpl. split; [|done]. intros _. by eexists _, _.
Qed.

Lemma keep_going_predicts_witness :
  (keep_going Example.WORDS Example.started (Some "act")).2 = JsonResult false
  ↔ ∃ (s' : session) (js : json),
      check Example.WORDS Example.never Example.started (Some "act")
      = ok (s', js, NotInVocabulary (Some "act")).
Proof.
  apply (keep_going_predicts_check Example.plain_jumbled Example.WORDS None 2
           Example.never Example.started (Some "act")).
  - apply (reach_start Example.plain_jumbled Example.WORDS None 2 Example.never
             empty_session tt Example.started tt (render_template "vocab.html")).
    reflexivity.
  - reflexivity.
Defined.

(** ** The seed, from the configuration to the generator *)

(** X14.  The generator is handed the seed [z] exactly when [int] of the
    configured value succeeds with [z] and [z] is positive.  A value that
    [int] rejects with [ValueError], the seed [0] and negative seeds all
    reach it as [None]; any other exception of [int] is not caught and
    leaves the module without a [SEED]. *)
Theorem seed_passed_iff_positive
    (int_of_str : string -> option Z) (v : config_value) (z : Z) :
  ((∃ SEED : option Z, module_SEED int_of_str v = ok SEED ∧ seed_arg SEED = Some z)
   ↔ py_int int_of_str v = ok z ∧ 0 < z)
  ∧ (is_ok (module_SEED int_of_str v) = false
     ↔ ∃ e : exn, py_int int_of_str v = raise e ∧ e ≠ ValueError).
Proof.
  unfold module_SEED. destruct (py_int int_of_str v) as [e|z'] eqn:Hint.
  - split.
    + split; [|by intros [? _]]. intros (SEED & Hmod & Hseed).
      destruct e; simplify_eq.
    + destruct e; simpl; split; try done;
        try (intros _; eexists; split; [reflexivity|discriminate]).
      intros (e' & He' & Hne). unfold raise in He'. by simplify_eq.
  - split.
    + split.
      * intros (SEED & Hmod & Hseed). unfold ok in Hmod. simplify_eq.
        rewrite seed_arg_spec in Hseed.
        destruct (Z.ltb_spec 0 z'); by simplify_eq.
      * intros [Hz Hpos]. unfold ok in Hz. simplify_eq. exists (Some z). split; [done|].
        rewrite seed_arg_spec. by destruct (Z.ltb_spec 0 z); [|lia].
    + simpl. split; [done|]. intros (e & He & _). discriminate.
Qed.
